(** * useFormValidation: a shallow embedding of the form-validation hook

    The hook of [useFormValidation] keeps two pieces of React state (the
    [errors] object and the [hasValidationAttempted] flag), merges the
    caller's rules over [DEFAULT_RULES] with an object spread, and hands out
    five callbacks.  JavaScript objects are finite maps from property names
    to values, the two [useState] cells are threaded through a small state
    monad, and a function result is a completion (normal or abrupt). *)

From stdpp Require Import gmap strings list fin_maps.
From Stdlib Require Import ZArith.

Local Open Scope string_scope.
Local Open Scope list_scope.

(** ** JavaScript values and objects *)

Module JS.

(** The values a [ValidationRules] property can hold at run time: the
    declared [number], [boolean] and [string[]] types, and [undefined],
    which an optional property admits. *)
Inductive value : Type :=
| VUndefined
| VNumber (n : Z)
| VBoolean (b : bool)
| VStrings (l : list string).

#[global] Instance value_eq_dec : EqDecision value.
Proof. solve_decision. Defined.

(** How a call ends: with a returned value, or abruptly with a thrown one. *)
Inductive completion (A : Type) : Type :=
| Normal (a : A)
| Throw (e : string).
Arguments Normal {A} a.
Arguments Throw {A} e.

(** [{...base, ...over}]: the own properties of [base], then those of
    [over], a later property replacing an earlier one of the same name
    whatever its value is. *)
Definition spread2 {V : Type} (base over : gmap string V) : gmap string V :=
  over ∪ base.

(** [Object.keys(o)]; only its length is looked at, so the enumeration
    order of the map is immaterial. *)
Definition Object_keys {V : Type} (o : gmap string V) : list string :=
  (map_to_list o).*1.

End JS.

Import JS.

(** ** The types of the hook *)

(** [ValidationErrors] and [ValidationRules] are objects with optional
    properties: a property is absent, or present with a value. *)
Abbreviation ValidationErrors := (gmap string string).
Abbreviation ValidationRules := (gmap string value).

Record FormData : Type := mkFormData {
  username : string;
  password : string;
  gender : option string
}.

Definition DEFAULT_RULES : ValidationRules :=
  <["usernameMinLength" := VNumber 3]>
  (<["usernameMaxLength" := VNumber 20]>
  (<["passwordMinLength" := VNumber 8]>
  (<["passwordRequireSpecialChars" := VBoolean true]>
  (<["isGenderRequired" := VBoolean false]>
  (<["genderOptions" := VStrings ["male"; "female"; "other"; "prefer-not-to-say"]]>
   ∅))))).

(** The parameter [rules: ValidationRules = {}]: an omitted argument is the
    empty object. *)
Definition rules_argument (arg : option ValidationRules) : ValidationRules :=
  default ∅ arg.

(** [validationRules = { ...DEFAULT_RULES, ...rules }] *)
Definition validationRules (rules : ValidationRules) : ValidationRules :=
  spread2 DEFAULT_RULES rules.

(** Reading the flag off the merged configuration. *)
Definition isGenderRequired (vr : ValidationRules) : bool :=
  bool_decide (vr !! "isGenderRequired" = Some (VBoolean true)).

(** The names of [keyof FormData]. *)
Definition keyof_FormData (fieldName : string) : bool :=
  bool_decide (fieldName ∈ ["username"; "password"; "gender"]).

(** ** The state of one hook instance *)

Record HookState : Type := mkHookState {
  errors : ValidationErrors;
  hasValidationAttempted : bool
}.

(** [useState({})] and [useState(false)] *)
Definition initial : HookState :=
  {| errors := ∅; hasValidationAttempted := false |}.

(** A state setter takes the next value or a function of the previous one. *)
Inductive SetStateAction (S : Type) : Type :=
| Value (s : S)
| Updater (f : S → S).
Arguments Value {S} s.
Arguments Updater {S} f.

Definition next_state {S : Type} (a : SetStateAction S) (prev : S) : S :=
  match a with
  | Value s => s
  | Updater f => f prev
  end.

Module Hook.

Definition M (A : Type) : Type := HookState → A * HookState.

#[global] Instance M_ret : MRet M := fun A a s => (a, s).

#[global] Instance M_bind : MBind M := fun A B k m s =>
  let '(a, s') := m s in k a s'.

Definition setErrors (a : SetStateAction ValidationErrors) : M unit :=
  fun s => (tt, {| errors := next_state a (errors s);
                   hasValidationAttempted := hasValidationAttempted s |}).

Definition setHasValidationAttempted (a : SetStateAction bool) : M unit :=
  fun s => (tt, {| errors := errors s;
                   hasValidationAttempted := next_state a (hasValidationAttempted s) |}).

Definition result {A : Type} (m : M A) (s : HookState) : A := fst (m s).
Definition after {A : Type} (m : M A) (s : HookState) : HookState := snd (m s).

End Hook.

Import Hook.

(** ** The derived value and the five callbacks *)

(** [Object.keys(errors).length === 0] *)
Definition isValid (s : HookState) : bool :=
  Nat.eqb (length (Object_keys (errors s))) 0.

(** The body returns [undefined] for every field name and value; it reads
    neither the rules nor the state. *)
Definition validateField (validationRules : ValidationRules)
    (fieldName value : string) : completion (option string) :=
  Normal None.

Definition validateForm (validationRules : ValidationRules)
    (formData : FormData) : M ValidationErrors :=
  setHasValidationAttempted (Value true) ;;
  let newErrors : ValidationErrors := ∅ in
  setErrors (Value newErrors) ;;
  mret newErrors.

Definition clearErrors : M unit :=
  setErrors (Value ∅) ;;
  setHasValidationAttempted (Value false).

Definition clearFieldError (fieldName : string) : M unit :=
  setErrors (Updater (fun prev =>
    let newErrors := spread2 ∅ prev in
    delete fieldName newErrors)).

Definition setError (fieldName error : string) : M unit :=
  setErrors (Updater (fun prev =>
    spread2 prev (<[fieldName := error]> ∅))).

(** ** Sequences of calls on one instance *)

Inductive Op : Type :=
| OpValidateField (fieldName value : string)
| OpValidateForm (formData : FormData)
| OpClearErrors
| OpClearFieldError (fieldName : string)
| OpSetError (fieldName error : string).

Definition step (vr : ValidationRules) (op : Op) (s : HookState) : HookState :=
  match op with
  | OpValidateField _ _ => s
  | OpValidateForm formData => after (validateForm vr formData) s
  | OpClearErrors => after clearErrors s
  | OpClearFieldError fieldName => after (clearFieldError fieldName) s
  | OpSetError fieldName error => after (setError fieldName error) s
  end.

Definition run (vr : ValidationRules) (ops : list Op) (s : HookState) : HookState :=
  foldl (fun st op => step vr op st) s ops.

Definition is_validateForm (op : Op) : bool :=
  match op with OpValidateForm _ => true | _ => false end.

Definition is_clearErrors (op : Op) : bool :=
  match op with OpClearErrors => true | _ => false end.

Definition sets_error_of (fieldName : string) (op : Op) : bool :=
  match op with
  | OpSetError f _ => bool_decide (f = fieldName)
  | _ => false
  end.

(** A call that removes or replaces the entry of [fieldName], whatever the
    entry was: the two calls that store a fresh map, and the two that write
    the key itself. *)
Definition overwrites_entry (fieldName : string) (op : Op) : bool :=
  match op with
  | OpValidateField _ _ => false
  | OpValidateForm _ => true
  | OpClearErrors => true
  | OpClearFieldError f => bool_decide (f = fieldName)
  | OpSetError f _ => bool_decide (f = fieldName)
  end.

(** ** Updates queued within one event

    The setters do not change the state a handler sees: each call appends to
    the queue of its own state cell, and the next render runs each queue in
    order from the current value.  These are the setter calls of each
    callback, per cell and in program order. *)

Module Batch.

Definition errors_updates (op : Op) : list (SetStateAction ValidationErrors) :=
  match op with
  | OpValidateField _ _ => []
  | OpValidateForm _ => [Value ∅]
  | OpClearErrors => [Value ∅]
  | OpClearFieldError fieldName =>
      [Updater (fun prev =>
         let newErrors := spread2 ∅ prev in delete fieldName newErrors)]
  | OpSetError fieldName error =>
      [Updater (fun prev => spread2 prev (<[fieldName := error]> ∅))]
  end.

Definition flag_updates (op : Op) : list (SetStateAction bool) :=
  match op with
  | OpValidateForm _ => [Value true]
  | OpClearErrors => [Value false]
  | _ => []
  end.

Definition process {S : Type} (queue : list (SetStateAction S)) (base : S) : S :=
  foldl (fun st a => next_state a st) base queue.

(** The state of the render that follows a handler making the calls [ops]. *)
Definition render_after (ops : list Op) (s : HookState) : HookState :=
  {| errors := process (ops ≫= errors_updates) (errors s);
     hasValidationAttempted :=
       process (ops ≫= flag_updates) (hasValidationAttempted s) |}.

End Batch.

(** ** The aggregation the form-level check is documented as

    This is the reading of the documented contract of [validateForm], kept
    apart from the embedding of its body above: the fields the current
    configuration requires, the value each one is checked on, and the map of
    the messages a field check gives for them.  The field check is a
    parameter, so that the aggregation can be compared with [validateForm]
    for [validateField] as it is and for any other body it may be given. *)





(** ** Equations of the callbacks *)

Section Equations.

Variable vr : ValidationRules.

Lemma validateForm_eq (formData : FormData) (s : HookState) :
  validateForm vr formData s
  = (∅, {| errors := ∅; hasValidationAttempted := true |}).
Proof. reflexivity. Qed.

Lemma clearErrors_eq (s : HookState) : clearErrors s = (tt, initial).
Proof. reflexivity. Qed.

Lemma spread_over_empty {V : Type} (o : gmap string V) : spread2 ∅ o = o.
Proof. unfold spread2. apply (right_id_L ∅ (∪)). Qed.

Lemma spread_one {V : Type} (o : gmap string V) (k : string) (v : V) :
  spread2 o (<[k := v]> ∅) = <[k := v]> o.
Proof.
  unfold spread2. rewrite <- insert_union_l. f_equal.
  apply (left_id_L ∅ (∪)).
Qed.

Lemma clearFieldError_eq (fieldName : string) (s : HookState) :
  clearFieldError fieldName s
  = (tt, {| errors := delete fieldName (errors s);
            hasValidationAttempted := hasValidationAttempted s |}).
Proof.
  unfold clearFieldError, setErrors; simpl. by rewrite spread_over_empty.
Qed.

Lemma setError_eq (fieldName error : string) (s : HookState) :
  setError fieldName error s
  = (tt, {| errors := <[fieldName := error]> (errors s);
            hasValidationAttempted := hasValidationAttempted s |}).
Proof.
  unfold setError, setErrors; simpl. by rewrite spread_one.
Qed.

Lemma run_cons (op : Op) (ops : list Op) (s : HookState) :
  run vr (op :: ops) s = run vr ops (step vr op s).
Proof. reflexivity. Qed.

Lemma run_snoc (op : Op) (ops : list Op) (s : HookState) :
  run vr (ops ++ [op]) s = step vr op (run vr ops s).
Proof. unfold run. by rewrite foldl_app. Qed.

Lemma step_flag (op : Op) (s : HookState) :
  hasValidationAttempted (step vr op s)
  = if is_validateForm op then true
    else if is_clearErrors op then false
    else hasValidationAttempted s.
Proof. by destruct op. Qed.

Lemma step_errors (op : Op) (s : HookState) :
  errors (step vr op s)
  = match op with
    | OpValidateField _ _ => errors s
    | OpValidateForm _ => ∅
    | OpClearErrors => ∅
    | OpClearFieldError f => delete f (errors s)
    | OpSetError f e => <[f := e]> (errors s)
    end.
Proof.
  destruct op; unfold step, after;
    rewrite ?clearFieldError_eq, ?setError_eq; done.
Qed.

End Equations.

Lemma Object_keys_length {V : Type} (o : gmap string V) :
  length (Object_keys o) = size o.
Proof. unfold Object_keys. by rewrite length_fmap, length_map_to_list. Qed.

Lemma isValid_iff_empty (s : HookState) : isValid s = true ↔ errors s = ∅.
Proof.
  unfold isValid. rewrite Object_keys_length, Nat.eqb_eq.
  apply map_size_empty_iff.
Qed.

Lemma validationRules_lookup (rules : ValidationRules) (k : string) :
  validationRules rules !! k
  = match rules !! k with
    | Some v => Some v
    | None => DEFAULT_RULES !! k
    end.
Proof.
  unfold validationRules, spread2. rewrite lookup_union.
  destruct (rules !! k) as [v|]; destruct (DEFAULT_RULES !! k); done.
Qed.


(** ** The merged configuration *)

Module Rules.

(** C5: in the merged configuration a key absent from the caller's object
    has its default, a key present has the caller's value, key by key; the
    defaults are 3, 20, 8, true, false and the four gender options; and
    [{passwordMinLength: 10}] changes that rule alone. *)
Theorem merge_defaults (rules : ValidationRules) (k : string) :
  (rules !! k = None → validationRules rules !! k = DEFAULT_RULES !! k)
  ∧ (∀ v, rules !! k = Some v → validationRules rules !! k = Some v)
  ∧ (DEFAULT_RULES !! "usernameMinLength" = Some (VNumber 3)
     ∧ DEFAULT_RULES !! "usernameMaxLength" = Some (VNumber 20)
     ∧ DEFAULT_RULES !! "passwordMinLength" = Some (VNumber 8)
     ∧ DEFAULT_RULES !! "passwordRequireSpecialChars" = Some (VBoolean true)
     ∧ DEFAULT_RULES !! "isGenderRequired" = Some (VBoolean false)
     ∧ DEFAULT_RULES !! "genderOptions"
       = Some (VStrings ["male"; "female"; "other"; "prefer-not-to-say"]))
  ∧ validationRules (rules_argument None) = DEFAULT_RULES
  ∧ validationRules (<["passwordMinLength" := VNumber 10]> ∅)
    = <["passwordMinLength" := VNumber 10]> DEFAULT_RULES.
Proof.
  split_and!; try reflexivity.
  - intros Hk. by rewrite validationRules_lookup, Hk.
  - intros v Hk. by rewrite validationRules_lookup, Hk.
Qed.

Lemma merge_defaults_witness :
  validationRules (<["passwordMinLength" := VNumber 10]> ∅) !! "usernameMaxLength"
  = Some (VNumber 20)
  ∧ validationRules (<["passwordMinLength" := VNumber 10]> ∅) !! "passwordMinLength"
    = Some (VNumber 10).
Proof.
  split.
  - rewrite (proj1 (merge_defaults (<["passwordMinLength" := VNumber 10]> ∅)
                      "usernameMaxLength")); reflexivity.
  - apply (proj1 (proj2 (merge_defaults (<["passwordMinLength" := VNumber 10]> ∅)
                           "passwordMinLength"))). reflexivity.
Defined.

(** C10: a key the caller supplies with the value [undefined] is
    [undefined] in the merged configuration, which is then not the default
    of that key; the default is what a key has when the caller's object
    lacks it. *)
Theorem explicit_undefined_overrides (rules : ValidationRules) (k : string) :
  rules !! k = Some VUndefined →
  validationRules rules !! k = Some VUndefined
  ∧ validationRules rules !! k ≠ DEFAULT_RULES !! k
  ∧ validationRules (delete k rules) !! k = DEFAULT_RULES !! k.
Proof.
  intros Hk. rewrite !validationRules_lookup, Hk, lookup_delete_eq.
  split_and!; [done| |done].
  unfold DEFAULT_RULES. intros Heq. symmetry in Heq.
  repeat (apply lookup_insert_Some in Heq as [[_ Heq]|[_ Heq]]; [done|]).
  by rewrite lookup_empty in Heq.
Qed.

Lemma explicit_undefined_overrides_witness :
  (<["passwordMinLength" := VUndefined]> ∅ : ValidationRules) !! "passwordMinLength"
  = Some VUndefined
  ∧ validationRules (<["passwordMinLength" := VUndefined]> ∅) !! "passwordMinLength"
    = Some VUndefined.
Proof.
  split; [reflexivity|].
  refine (proj1 (explicit_undefined_overrides
           (<["passwordMinLength" := VUndefined]> ∅) "passwordMinLength" _)).
  reflexivity.
Defined.

End Rules.

(** ** The error state *)

Module ErrorState.

(** C8: [clearFieldError] deletes the named key and nothing else: every
    other key keeps its presence and message, the attempted flag is kept,
    and the state is unchanged when the key was absent. *)
Theorem clearFieldError_frame (fieldName : string) (s : HookState) :
  errors (after (clearFieldError fieldName) s) !! fieldName = None
  ∧ (∀ k, k ≠ fieldName →
       errors (after (clearFieldError fieldName) s) !! k = errors s !! k)
  ∧ hasValidationAttempted (after (clearFieldError fieldName) s)
    = hasValidationAttempted s
  ∧ (errors s !! fieldName = None → after (clearFieldError fieldName) s = s).
Proof.
  unfold after. rewrite clearFieldError_eq. simpl. split_and!.
  - apply lookup_delete_eq.
  - intros k Hk. by apply lookup_delete_ne.
  - reflexivity.
  - intros Hk. rewrite delete_id by done. by destruct s.
Qed.

Lemma clearFieldError_frame_witness :
  let s := {| errors := <["username" := "taken"]> (<["form" := "rejected"]> ∅);
              hasValidationAttempted := true |} in
  errors (after (clearFieldError "username") s) = <["form" := "rejected"]> ∅
  ∧ after (clearFieldError "gender") s = s.
Proof.
  intros s. split.
  - apply map_eq. intros k. destruct (decide (k = "username")) as [->|Hk].
    + by rewrite (proj1 (clearFieldError_frame "username" s)).
    + rewrite (proj1 (proj2 (clearFieldError_frame "username" s)) k Hk).
      subst s; simpl. by rewrite lookup_insert_ne.
  - apply (clearFieldError_frame "gender" s). reflexivity.
Defined.

Lemma flag_after_run (vr : ValidationRules) (ops : list Op) (s : HookState) :
  hasValidationAttempted (run vr ops s) = true
  ↔ (∃ pre formData post,
        ops = pre ++ OpValidateForm formData :: post ∧ OpClearErrors ∉ post)
    ∨ (hasValidationAttempted s = true ∧ OpClearErrors ∉ ops).
Proof.
  revert s. induction ops as [|op ops IH]; intros s.
  - simpl. split.
    + intros Hs. right. split; [done|]. apply not_elem_of_nil.
    + intros [(pre & d & post & Heq & _)|[Hs _]]; [|done].
      by destruct pre.
  - rewrite run_cons, IH, step_flag. split.
    + intros [(pre & d & post & -> & Hpost)|[Hflag Hops]].
      * left. by exists (op :: pre), d, post.
      * destruct op; simpl in Hflag; try done.
        -- right. split; [done|]. by apply not_elem_of_cons.
        -- left. by exists [], formData, ops.
        -- right. split; [done|]. by apply not_elem_of_cons.
        -- right. split; [done|]. by apply not_elem_of_cons.
    + intros [(pre & d & post & Heq & Hpost)|[Hflag Hops]].
      * destruct pre as [|op' pre]; simpl in Heq; injection Heq as -> ->.
        -- right. by split.
        -- left. by exists pre, d, post.
      * apply not_elem_of_cons in Hops as [Hop Hops].
        right. split; [|done]. destruct op; simpl; done.
Qed.

(** C6: a call of [validateForm] stores the map it returns and sets the
    attempted flag; [isValid] holds exactly of an empty stored map; the flag
    is set exactly when some [validateForm] call has no [clearErrors] after
    it; and [clearErrors] gives back the empty map and the unset flag. *)
Theorem validateForm_bookkeeping (vr : ValidationRules) :
  (∀ formData s,
      errors (after (validateForm vr formData) s)
      = result (validateForm vr formData) s
      ∧ hasValidationAttempted (after (validateForm vr formData) s) = true)
  ∧ (∀ s, isValid s = true ↔ errors s = ∅)
  ∧ (∀ ops,
        hasValidationAttempted (run vr ops initial) = true
        ↔ ∃ pre formData post,
            ops = pre ++ OpValidateForm formData :: post
            ∧ OpClearErrors ∉ post)
  ∧ (∀ s, errors (after clearErrors s) = ∅
          ∧ hasValidationAttempted (after clearErrors s) = false).
Proof.
  split_and!.
  - intros formData s. by split.
  - apply isValid_iff_empty.
  - intros ops. rewrite flag_after_run. simpl.
    split; [intros [H|[H _]]; [exact H|discriminate H] | by left].
  - intros s. by split.
Qed.

End ErrorState.

(** ** The gender entry and [setError] *)

Module GenderEntry.

Lemma no_entry_preserved (vr : ValidationRules) (k : string) (ops : list Op)
    (s : HookState) :
  existsb (sets_error_of k) ops = false →
  errors s !! k = None →
  errors (run vr ops s) !! k = None.
Proof.
  revert s. induction ops as [|op ops IH]; intros s Hops Hs; [done|].
  simpl in Hops. apply orb_false_iff in Hops as [Hop Hops].
  rewrite run_cons. apply IH; [done|].
  rewrite step_errors. destruct op; simpl in Hop; try done.
  - destruct (decide (fieldName = k)) as [->|Hne].
    + apply lookup_delete_eq.
    + by rewrite lookup_delete_ne.
  - apply bool_decide_eq_false in Hop. by rewrite lookup_insert_ne.
Qed.

(** C7, as the code has it: with [isGenderRequired] false, a sequence of
    calls in which [setError] is never given the name [gender] leaves the
    error state without a [gender] entry; and whatever the rules, the state
    and the calls made before are, [setError('gender', m)] stores the entry
    [m]. *)
Theorem no_gender_entry_without_setError (rules : ValidationRules)
    (ops : list Op) :
  (isGenderRequired (validationRules rules) = false →
   existsb (sets_error_of "gender") ops = false →
   errors (run (validationRules rules) ops initial) !! "gender" = None)
  ∧ (∀ vr s message,
        errors (run vr (ops ++ [OpSetError "gender" message]) s) !! "gender"
        = Some message).
Proof.
  split.
  - intros _ Hops. by apply no_entry_preserved.
  - intros vr s message. rewrite run_snoc, step_errors. apply lookup_insert_eq.
Qed.

Lemma no_gender_entry_without_setError_witness :
  let ops := [OpSetError "username" "taken";
              OpValidateField "gender" "other";
              OpValidateForm (mkFormData "alice" "Valid1!23" (Some "other"));
              OpSetError "form" "rejected";
              OpClearFieldError "gender"] in
  isGenderRequired (validationRules ∅) = false
  ∧ existsb (sets_error_of "gender") ops = false
  ∧ errors (run (validationRules ∅) ops initial) !! "gender" = None
  ∧ isGenderRequired (validationRules (<["isGenderRequired" := VBoolean true]> ∅))
    = true
  ∧ errors (run (validationRules (<["isGenderRequired" := VBoolean true]> ∅))
              (ops ++ [OpSetError "gender" "rejected"]) initial) !! "gender"
    = Some "rejected".
Proof.
  intros ops. split_and!; [reflexivity|reflexivity| |reflexivity|].
  - apply (proj1 (no_gender_entry_without_setError ∅ ops)); reflexivity.
  - apply (proj2 (no_gender_entry_without_setError ∅ ops)).
Defined.

(** C7 as stated fails: under the default rules, where [isGenderRequired]
    is false, one call [setError('gender', ...)] puts a [gender] entry into
    the error state. *)
Lemma setError_gender_counterexample :
  isGenderRequired (validationRules ∅) = false
  ∧ errors (run (validationRules ∅) [OpSetError "gender" "rejected"] initial)
      !! "gender" = Some "rejected".
Proof. split; reflexivity. Qed.

End GenderEntry.

(** ** Field-level and form-level validation *)

Module Validation.

(** C9, as the code has it: no call of [validateField] ends abruptly,
    whatever the field name is, and a name outside [keyof FormData] is
    answered with a normal return of [undefined]. *)
Theorem unknown_field_returns_normally (vr : ValidationRules)
    (fieldName value : string) :
  (∀ e, validateField vr fieldName value ≠ Throw e)
  ∧ (keyof_FormData fieldName = false →
     validateField vr fieldName value = Normal None).
Proof. split; [intros e; discriminate|by intros _]. Qed.

Lemma unknown_field_returns_normally_witness :
  keyof_FormData "email" = false
  ∧ validateField (validationRules ∅) "email" "a@b.c" = Normal None
  ∧ validateField (validationRules ∅) "username" "ab" ≠ Throw "TooShort".
Proof.
  split_and!; [reflexivity| |].
  - apply (proj2 (unknown_field_returns_normally
                    (validationRules ∅) "email" "a@b.c")).
    reflexivity.
  - apply (proj1 (unknown_field_returns_normally
                    (validationRules ∅) "username" "ab")).
Defined.

(** C9 as stated fails: [email] is not a field of [FormData], and the call
    returns normally instead of raising [UnknownField]. *)
Lemma unknown_field_counterexample :
  keyof_FormData "email" = false
  ∧ validateField (validationRules ∅) "email" "a@b.c" = Normal None
  ∧ validateField (validationRules ∅) "email" "a@b.c" ≠ Throw "UnknownField".
Proof. split_and!; [reflexivity|reflexivity|discriminate]. Qed.



End Validation.

(** ** Where the placeholder bodies fall short of the documented rules

    [validateField] and [validateForm] are documented as checking the rules
    of the merged configuration, and their bodies are marked as still to be
    written.  The evaluations below record what the code returns on the
    inputs of the documented scenarios. *)

Module Placeholder.

Definition default_rules : ValidationRules := validationRules (rules_argument None).

Definition gender_rules : ValidationRules :=
  validationRules (<["isGenderRequired" := VBoolean true]> ∅).



(** C2: under the default rules the minimum username length is 3 and the
    maximum is 20, yet a username of length 2 and one of length 21 get no
    error from [validateField], and [validateForm] on
    [{username: "ab", password: "Passw0rd!"}] returns the empty map, not a
    map with a [username] entry. *)
Theorem username_length_not_checked :
  default_rules !! "usernameMinLength" = Some (VNumber 3)
  ∧ default_rules !! "usernameMaxLength" = Some (VNumber 20)
  ∧ String.length "ab" = 2
  ∧ validateField default_rules "username" "ab" = Normal None
  ∧ String.length "abcdefghijklmnopqrstu" = 21
  ∧ validateField default_rules "username" "abcdefghijklmnopqrstu" = Normal None
  ∧ result (validateForm default_rules (mkFormData "ab" "Passw0rd!" None)) initial
    = ∅
  ∧ ∀ message,
      result (validateForm default_rules (mkFormData "ab" "Passw0rd!" None)) initial
      ≠ <["username" := message]> ∅.
Proof.
  split_and!; try reflexivity.
  intros message Heq. apply (f_equal (lookup "username")) in Heq.
  by rewrite lookup_insert_eq in Heq.
Qed.

(** C3: under the default rules the minimum password length is 8 and
    special characters are required, yet a password of length 5 and the
    all-letters password [longenough] get no error from [validateField],
    and [validateForm] on [{username: "alice", password: "longenough"}]
    returns the empty map, not a map with a [password] entry. *)
Theorem password_rules_not_checked :
  default_rules !! "passwordMinLength" = Some (VNumber 8)
  ∧ default_rules !! "passwordRequireSpecialChars" = Some (VBoolean true)
  ∧ String.length "short" = 5
  ∧ validateField default_rules "password" "short" = Normal None
  ∧ validateField default_rules "password" "longenough" = Normal None
  ∧ result (validateForm default_rules (mkFormData "alice" "longenough" None)) initial
    = ∅
  ∧ ∀ message,
      result (validateForm default_rules (mkFormData "alice" "longenough" None)) initial
      ≠ <["password" := message]> ∅.
Proof.
  split_and!; try reflexivity.
  intros message Heq. apply (f_equal (lookup "password")) in Heq.
  by rewrite lookup_insert_eq in Heq.
Qed.

(** C4: with [isGenderRequired] true and the default gender options, the
    empty value and the value [robot], which is not an option, both get no
    error from [validateField]; with [isGenderRequired] false every value
    gets none. *)
Theorem gender_rules_not_checked :
  isGenderRequired gender_rules = true
  ∧ gender_rules !! "genderOptions"
    = Some (VStrings ["male"; "female"; "other"; "prefer-not-to-say"])
  ∧ validateField gender_rules "gender" "" = Normal None
  ∧ "robot" ∉ ["male"; "female"; "other"; "prefer-not-to-say"]
  ∧ validateField gender_rules "gender" "robot" = Normal None
  ∧ (∀ vr value,
        isGenderRequired vr = false → validateField vr "gender" value = Normal None).
Proof.
  split_and!; try reflexivity.
  rewrite !not_elem_of_cons. split_and!; try discriminate.
  apply not_elem_of_nil.
Qed.

End Placeholder.

(** ** Custom errors: [setError] and how it composes with the clearing calls *)

Module CustomError.

(** X1: [setError] stores the message under the named key and changes
    nothing else: every other key keeps its entry, and the attempted flag
    is kept. *)
Theorem setError_lookup_frame (fieldName error : string) (s : HookState) :
  errors (after (setError fieldName error) s) !! fieldName = Some error
  ∧ (∀ k, k ≠ fieldName →
       errors (after (setError fieldName error) s) !! k = errors s !! k)
  ∧ hasValidationAttempted (after (setError fieldName error) s)
    = hasValidationAttempted s.
Proof.
  unfold after. rewrite setError_eq. simpl. split_and!.
  - apply lookup_insert_eq.
  - intros k Hk. by apply lookup_insert_ne.
  - reflexivity.
Qed.

(** X2: of two [setError] calls on one key the later message is the one
    kept: the pair has the effect of the second call alone. *)
Theorem setError_last_wins (fieldName e1 e2 : string) (s : HookState) :
  after (setError fieldName e2) (after (setError fieldName e1) s)
  = after (setError fieldName e2) s.
Proof.
  unfold after. rewrite !setError_eq. simpl. by rewrite insert_insert_eq.
Qed.

(** X3: [setError] calls on different keys can be made in either order. *)
Theorem setError_commute (f g e1 e2 : string) (s : HookState) :
  f ≠ g →
  after (setError g e2) (after (setError f e1) s)
  = after (setError f e1) (after (setError g e2) s).
Proof.
  intros Hfg. unfold after. rewrite !setError_eq. simpl.
  f_equal. by apply insert_insert_ne.
Qed.

Lemma setError_commute_witness :
  "username" ≠ "form"
  ∧ after (setError "form" "rejected") (after (setError "username" "taken") initial)
    = after (setError "username" "taken") (after (setError "form" "rejected") initial).
Proof.
  split; [discriminate|].
  apply (setError_commute "username" "form" "taken" "rejected" initial).
  discriminate.
Defined.

(** X4: [clearFieldError] after [setError] on the same key gives back the
    state before the two calls exactly when the key had no entry.  Whatever
    the state, clearing after setting is clearing alone, and setting after
    clearing is setting alone. *)
Theorem setError_clearFieldError_round_trip (fieldName error : string)
    (s : HookState) :
  (after (clearFieldError fieldName) (after (setError fieldName error) s) = s
   ↔ errors s !! fieldName = None)
  ∧ after (clearFieldError fieldName) (after (setError fieldName error) s)
    = after (clearFieldError fieldName) s
  ∧ after (setError fieldName error) (after (clearFieldError fieldName) s)
    = after (setError fieldName error) s.
Proof.
  unfold after. rewrite !setError_eq, !clearFieldError_eq. simpl.
  rewrite delete_insert_eq, insert_delete_eq. split_and!; [|done|done].
  split.
  - intros Heq. rewrite <- Heq. simpl. apply lookup_delete_eq.
  - intros Hk. rewrite delete_id by done. by destruct s.
Qed.

Lemma setError_clearFieldError_round_trip_witness :
  let s := {| errors := <["form" := "rejected"]> ∅;
              hasValidationAttempted := true |} in
  errors s !! "password" = None
  ∧ after (clearFieldError "password") (after (setError "password" "weak") s) = s
  ∧ after (clearFieldError "form") (after (setError "form" "late") s) ≠ s.
Proof.
  intros s. split_and!; [reflexivity| |].
  - apply (proj2 (proj1 (setError_clearFieldError_round_trip "password" "weak" s))).
    reflexivity.
  - intros Heq.
    apply (proj1 (proj1 (setError_clearFieldError_round_trip "form" "late" s)))
      in Heq.
    discriminate Heq.
Defined.

(** X5: clearing a key twice is clearing it once, and two keys can be
    cleared in either order. *)
Theorem clearFieldError_idempotent_commute (f g : string) (s : HookState) :
  after (clearFieldError f) (after (clearFieldError f) s)
  = after (clearFieldError f) s
  ∧ after (clearFieldError g) (after (clearFieldError f) s)
    = after (clearFieldError f) (after (clearFieldError g) s).
Proof.
  unfold after. rewrite !clearFieldError_eq. simpl. split.
  - by rewrite delete_delete_eq.
  - f_equal. apply delete_delete.
Qed.

(** X6: after [setError] the form is not valid, whatever the key and the
    message are, the empty message included: [isValid] counts keys and does
    not look at messages. *)
Theorem setError_invalidates (fieldName error : string) (s : HookState) :
  isValid (after (setError fieldName error) s) = false.
Proof.
  apply not_true_iff_false. rewrite isValid_iff_empty.
  unfold after. rewrite setError_eq. simpl. apply insert_non_empty.
Qed.

(** X7: after [clearFieldError] the form is valid exactly when no key other
    than the cleared one had an entry. *)
Theorem isValid_after_clearFieldError (fieldName : string) (s : HookState) :
  isValid (after (clearFieldError fieldName) s) = true
  ↔ ∀ k, k ≠ fieldName → errors s !! k = None.
Proof.
  rewrite isValid_iff_empty. unfold after. rewrite clearFieldError_eq. simpl.
  rewrite map_empty. split.
  - intros H k Hk. by rewrite <- (H k), lookup_delete_ne.
  - intros H k. destruct (decide (k = fieldName)) as [->|Hk].
    + apply lookup_delete_eq.
    + rewrite lookup_delete_ne by done. by apply H.
Qed.

End CustomError.

(** ** The error state as a function of the calls made *)

Module History.

Lemma run_app (vr : ValidationRules) (ops1 ops2 : list Op) (s : HookState) :
  run vr (ops1 ++ ops2) s = run vr ops2 (run vr ops1 s).
Proof. unfold run. apply foldl_app. Qed.

(** X8: [clearErrors] forgets everything: whatever state the instance was
    in and whatever calls came before, the calls after a [clearErrors]
    behave as on a fresh instance. *)
Theorem clearErrors_resets_history (vr : ValidationRules) (pre post : list Op)
    (s : HookState) :
  run vr (pre ++ OpClearErrors :: post) s = run vr post initial.
Proof. by rewrite run_app, run_cons. Qed.

(** X9: [validateForm] replaces the stored map instead of merging into it:
    the state after the call is the same from every prior state, so entries
    put by [setError] before it are gone and a second call in a row changes
    nothing. *)
Theorem validateForm_overwrites (vr : ValidationRules) (formData : FormData)
    (s1 s2 : HookState) :
  after (validateForm vr formData) s1 = after (validateForm vr formData) s2
  ∧ (∀ k, errors (after (validateForm vr formData) s1) !! k
          = result (validateForm vr formData) s1 !! k)
  ∧ after (validateForm vr formData) (after (validateForm vr formData) s1)
    = after (validateForm vr formData) s1
  ∧ result (validateForm vr formData) (after (validateForm vr formData) s1)
    = result (validateForm vr formData) s1.
Proof. unfold after, result. rewrite !validateForm_eq. by split_and!. Qed.

Lemma entry_after_run (vr : ValidationRules) (k e : string) (ops : list Op)
    (s : HookState) :
  errors (run vr ops s) !! k = Some e
  ↔ (∃ pre post,
        ops = pre ++ OpSetError k e :: post
        ∧ existsb (overwrites_entry k) post = false)
    ∨ (errors s !! k = Some e ∧ existsb (overwrites_entry k) ops = false).
Proof.
  revert s. induction ops as [|op ops IH]; intros s.
  - simpl. split.
    + intros Hs. by right.
    + intros [(pre & post & Heq & _)|[Hs _]]; [|done]. by destruct pre.
  - rewrite run_cons, IH, step_errors. simpl. split.
    + intros [(pre & post & -> & Hpost)|[Hk Hops]].
      * left. by exists (op :: pre), post.
      * destruct op as [f v|d| |f|f e']; simpl.
        -- right. by split.
        -- by rewrite lookup_empty in Hk.
        -- by rewrite lookup_empty in Hk.
        -- destruct (decide (f = k)) as [->|Hne].
           ++ by rewrite lookup_delete_eq in Hk.
           ++ rewrite lookup_delete_ne in Hk by done.
              right. split; [done|]. by rewrite bool_decide_eq_false_2.
        -- destruct (decide (f = k)) as [->|Hne].
           ++ rewrite lookup_insert_eq in Hk. injection Hk as ->.
              left. by exists [], ops.
           ++ rewrite lookup_insert_ne in Hk by done.
              right. split; [done|]. by rewrite bool_decide_eq_false_2.
    + intros [(pre & post & Heq & Hpost)|[Hk Hops]].
      * destruct pre as [|op' pre]; simpl in Heq; injection Heq as -> ->.
        -- right. split; [apply lookup_insert_eq|done].
        -- left. by exists pre, post.
      * apply orb_false_iff in Hops as [Hop Hops].
        right. split; [|done].
        destruct op as [f v|d| |f|f e']; simpl in Hop; try done.
        -- apply bool_decide_eq_false in Hop. by rewrite lookup_delete_ne.
        -- apply bool_decide_eq_false in Hop. by rewrite lookup_insert_ne.
Qed.

(** X10: after any sequence of calls on a fresh instance, a key has the
    entry [e] exactly when the sequence contains a call [setError(k, e)]
    that is followed by no [validateForm], no [clearErrors], no
    [clearFieldError(k)] and no further [setError(k, _)]. *)
Theorem entry_iff_surviving_setError (vr : ValidationRules) (k e : string)
    (ops : list Op) :
  errors (run vr ops initial) !! k = Some e
  ↔ ∃ pre post,
      ops = pre ++ OpSetError k e :: post
      ∧ existsb (overwrites_entry k) post = false.
Proof.
  rewrite entry_after_run. simpl. rewrite lookup_empty.
  split; [intros [H|[H _]]; [exact H|discriminate H] | by left].
Qed.

(** X11: after any sequence of calls on a fresh instance the form is not
    valid exactly when some [setError] call survives to the end of the
    sequence. *)
Theorem invalid_iff_surviving_setError (vr : ValidationRules) (ops : list Op) :
  isValid (run vr ops initial) = false
  ↔ ∃ k e pre post,
      ops = pre ++ OpSetError k e :: post
      ∧ existsb (overwrites_entry k) post = false.
Proof.
  rewrite <- not_true_iff_false, isValid_iff_empty, map_empty. split.
  - intros Hne.
    destruct (map_choose (errors (run vr ops initial))) as (k & e & Hk).
    + intros Hempty. apply Hne. intros i. by rewrite Hempty, lookup_empty.
    + exists k, e. apply entry_after_run in Hk as [H|[H _]]; [exact H|].
      simpl in H. by rewrite lookup_empty in H.
  - intros (k & e & pre & post & Heq & Hpost) Hall.
    assert (errors (run vr ops initial) !! k = Some e) as Hk.
    { apply entry_after_run. left. by exists pre, post. }
    by rewrite Hall in Hk.
Qed.

(** X12: the calls made within one event, whose updates are queued per
    state cell and run at the next render, leave the state that making them
    one after the other leaves: no update is lost to batching. *)
Theorem batched_calls_compose (vr : ValidationRules) (ops : list Op)
    (s : HookState) :
  Batch.render_after ops s = run vr ops s.
Proof.
  revert s. induction ops as [|op ops IH]; intros s.
  - by destruct s.
  - rewrite run_cons, <- IH. unfold Batch.render_after, Batch.process.
    rewrite !bind_cons, !foldl_app. f_equal.
    + f_equal. rewrite step_errors.
      destruct op; simpl; rewrite ?spread_over_empty, ?spread_one; done.
    + f_equal. rewrite step_flag. by destruct op.
Qed.

End History.

(** ** The keys of the merged configuration *)

Module MergedKeys.

Lemma DEFAULT_RULES_dom :
  dom DEFAULT_RULES
  = list_to_set ["usernameMinLength"; "usernameMaxLength"; "passwordMinLength";
                 "passwordRequireSpecialChars"; "isGenderRequired";
                 "genderOptions"].
Proof.
  unfold DEFAULT_RULES. rewrite !dom_insert_L, dom_empty_L. simpl.
  set_solver.
Qed.

(** X13: the merged configuration has exactly the caller's keys and the six
    rule keys: whatever the caller passes, each of the six rules has an
    entry, and a key the caller adds beyond them is carried along. *)
Theorem merged_keys (rules : ValidationRules) :
  dom (validationRules rules) = dom rules ∪ dom DEFAULT_RULES
  ∧ Forall (fun k => is_Some (validationRules rules !! k))
      ["usernameMinLength"; "usernameMaxLength"; "passwordMinLength";
       "passwordRequireSpecialChars"; "isGenderRequired"; "genderOptions"]
  ∧ (∀ k, k ∉ dom DEFAULT_RULES → validationRules rules !! k = rules !! k).
Proof.
  split_and!.
  - unfold validationRules, spread2. apply dom_union_L.
  - repeat constructor; rewrite validationRules_lookup;
      destruct (rules !! _); by eexists.
  - intros k Hk. apply not_elem_of_dom in Hk.
    rewrite validationRules_lookup, Hk. by destruct (rules !! k).
Qed.

(** X14: merging is idempotent, and a caller's object that defines all six
    rules is the merged configuration itself: no default is left in it. *)
Theorem merge_idempotent_full_override (rules : ValidationRules) :
  validationRules (validationRules rules) = validationRules rules
  ∧ (dom DEFAULT_RULES ⊆ dom rules → validationRules rules = rules).
Proof.
  split.
  - apply map_eq. intros k. rewrite !validationRules_lookup.
    by destruct (rules !! k), (DEFAULT_RULES !! k).
  - intros Hdom. apply map_eq. intros k. rewrite validationRules_lookup.
    destruct (rules !! k) as [v|] eqn:Hk; [done|].
    apply not_elem_of_dom. intros Hin. apply Hdom in Hin.
    by apply not_elem_of_dom in Hk.
Qed.

Lemma merge_idempotent_full_override_witness :
  let rules : ValidationRules :=
    <["usernameMinLength" := VNumber 1]>
    (<["usernameMaxLength" := VNumber 64]>
    (<["passwordMinLength" := VNumber 12]>
    (<["passwordRequireSpecialChars" := VBoolean false]>
    (<["isGenderRequired" := VBoolean true]>
    (<["genderOptions" := VStrings ["male"; "female"; "non-binary"]]> ∅))))) in
  validationRules rules = rules.
Proof.
  intros rules.
  apply (proj2 (merge_idempotent_full_override rules)).
  rewrite DEFAULT_RULES_dom. subst rules.
  rewrite !dom_insert_L, dom_empty_L. simpl. set_solver.
Defined.

End MergedKeys.
